(** * restakingpy: the vault [Config] account decoder and its address deriver

    A shallow embedding of [src/restakingpy/accounts/vault/config.py].

    The Python code works on [bytes] values, on unbounded [int]s and on the
    [Pubkey] class of the [solders] package.  Below,

    - [bytes] is [list byte] and a slice [data[a:b]] is [slice data a b];
    - [int] is [Z], and [int.from_bytes] is [int_from_bytes];
    - an exception is a value of [exception], and a call that may raise
      returns a [result];
    - [Pubkey] is a 32-byte value that can only be built from a byte string
      of length 32; on any other length [Pubkey.from_bytes] panics inside
      [solders], which Python sees as [pyo3_runtime.PanicException].

    The call [int.from_bytes(b)] without [byteorder] (used for [bump]) is
    read as Python 3.11 and later read it: the byte order defaults to
    ['big']. *)

From Stdlib Require Import Strings.String Strings.Byte.
From Stdlib Require Import ZArith List Lia PeanoNat Eqdep_dec.
From Stdlib Require Import Ascii DecimalString DecimalZ DecimalPos.
Import ListNotations.

Local Open Scope Z_scope.

(* ================================================================== *)
(** ** Exceptions and results *)

(** The exceptions of the embedded code.  [PanicException] is
    [pyo3_runtime.PanicException], the form in which a Rust panic inside
    [solders] reaches Python: it derives from [BaseException], not from
    [Exception], and is what [Pubkey.from_bytes] raises on a byte string
    whose length is not 32.  [DerivationExhausted] is the failure of the
    address-derivation primitive when no bump seed gives an off-curve
    address. *)
Inductive exception : Type :=
  | PanicException
  | DerivationExhausted.

Inductive result (A : Type) : Type :=
  | Ok (a : A)
  | Raise (e : exception).

Arguments Ok {A} a.
Arguments Raise {A} e.

Definition bind {A B : Type} (r : result A) (k : A -> result B) : result B :=
  match r with
  | Ok a => k a
  | Raise e => Raise e
  end.

Notation "x <- r ;; k" := (bind r (fun x => k))
  (at level 61, r at next level, right associativity).

(* ================================================================== *)
(** ** Python built-ins: [bytes], slices and [int.from_bytes] *)

Definition bytes : Type := list byte.

(** [data[start:stop]] for non-negative [start] and [stop]: the elements at
    the indices [i] with [start <= i < stop] that exist.  A slice never
    raises; it is shorter than [stop - start] when [data] ends early. *)
Definition slice (data : bytes) (start stop : nat) : bytes :=
  firstn (stop - start) (skipn start data).

Definition byte_val (b : byte) : Z := Z.of_N (Byte.to_N b).

Inductive byteorder : Type := little | big.

(** Least significant byte first. *)
Fixpoint int_from_bytes_little (bs : bytes) : Z :=
  match bs with
  | [] => 0
  | b :: rest => byte_val b + 256 * int_from_bytes_little rest
  end.

(** Most significant byte first. *)
Definition int_from_bytes_big (bs : bytes) : Z :=
  fold_left (fun acc b => 256 * acc + byte_val b) bs 0.

(** [int.from_bytes(bs, byteorder=order)], unsigned.  The empty byte string
    is read as [0]; there is no failure case. *)
Definition int_from_bytes (bs : bytes) (order : byteorder) : Z :=
  match order with
  | little => int_from_bytes_little bs
  | big => int_from_bytes_big bs
  end.

(* ================================================================== *)
(** ** The [Pubkey] collaborator *)

Module Pubkey.

Definition LENGTH : nat := 32.

(** A public key is exactly [LENGTH] bytes. *)
Record t : Type := mk {
  to_bytes : bytes;
  to_bytes_length : length to_bytes = LENGTH
}.

(** [Pubkey.from_bytes(raw)]: the key whose bytes are [raw]; a panic,
    raised as [PanicException], when [raw] is not [LENGTH] bytes long. *)
Definition from_bytes (raw : bytes) : result t :=
  match Nat.eq_dec (length raw) LENGTH with
  | left H => Ok (mk raw H)
  | right _ => Raise PanicException
  end.

End Pubkey.

(* ================================================================== *)
(** ** The [Config] account *)

Record Config : Type := mkConfig {
  admin : Pubkey.t;
  restaking_program : Pubkey.t;
  epoch_length : Z;
  num_vaults : Z;
  deposit_withdrawal_fee_cap_bps : Z;
  fee_rate_of_change_bps : Z;
  fee_bump_bps : Z;
  program_fee_bps : Z;
  program_fee_wallet : Pubkey.t;
  fee_admin : Pubkey.t;
  bump : Z
}.

(** The class attribute [Config.discriminator]. *)
Definition discriminator : Z := 1.

(** [Config.deserialize(data)].  The cursor [offset] starts after the
    8-byte discriminator region, which is not read. *)
Definition deserialize (data : bytes) : result Config :=
  let offset := 0%nat in
  let offset := (offset + 8)%nat in
  (* Admin *)
  admin <- Pubkey.from_bytes (slice data offset (offset + 32)) ;;
  let offset := (offset + 32)%nat in
  (* Restaking Program *)
  restaking_program <- Pubkey.from_bytes (slice data offset (offset + 32)) ;;
  let offset := (offset + 32)%nat in
  (* Epoch Length *)
  let epoch_length := int_from_bytes (slice data offset (offset + 8)) little in
  let offset := (offset + 8)%nat in
  (* Number of Vaults *)
  let num_vaults := int_from_bytes (slice data offset (offset + 8)) little in
  let offset := (offset + 8)%nat in
  (* Deposit Withdrawal Fee Cap BPS *)
  let deposit_withdrawal_fee_cap_bps :=
    int_from_bytes (slice data offset (offset + 2)) little in
  let offset := (offset + 2)%nat in
  (* Fee Rate of Change BPS *)
  let fee_rate_of_change_bps :=
    int_from_bytes (slice data offset (offset + 2)) little in
  let offset := (offset + 2)%nat in
  (* Fee Bump BPS *)
  let fee_bump_bps := int_from_bytes (slice data offset (offset + 2)) little in
  let offset := (offset + 2)%nat in
  (* Program Fee BPS *)
  let program_fee_bps := int_from_bytes (slice data offset (offset + 2)) little in
  let offset := (offset + 2)%nat in
  (* Program Fee Wallet *)
  program_fee_wallet <- Pubkey.from_bytes (slice data offset (offset + 32)) ;;
  let offset := (offset + 32)%nat in
  (* Fee Admin *)
  fee_admin <- Pubkey.from_bytes (slice data offset (offset + 32)) ;;
  let offset := (offset + 32)%nat in
  (* Bump: no byteorder argument, so the default, big *)
  let bump := int_from_bytes (slice data offset (offset + 1)) big in
  Ok (mkConfig admin restaking_program epoch_length num_vaults
        deposit_withdrawal_fee_cap_bps fee_rate_of_change_bps fee_bump_bps
        program_fee_bps program_fee_wallet fee_admin bump).

(** [Config.seeds()]: a new list holding the byte string [b"config"]. *)
Definition seeds : list bytes := [list_byte_of_string "config"].

Section AddressDeriver.

(** [Pubkey.find_program_address(seeds, program_id)] of [solders]: the
    derived address and its bump seed.  Its hashing and curve arithmetic
    are outside this repository. *)
Variable Pubkey_find_program_address :
  list bytes -> Pubkey.t -> result (Pubkey.t * Z).

(** [Config.find_program_address(program_id)]. *)
Definition find_program_address (program_id : Pubkey.t)
  : result (Pubkey.t * Z * list bytes) :=
  let seeds := seeds in
  pda_bump <- Pubkey_find_program_address seeds program_id ;;
  let '(pda, bump) := pda_bump in
  Ok (pda, bump, seeds).

End AddressDeriver.

(* ================================================================== *)
(** ** What the specification names *)

(** The specification wants the decoder to fail with a typed error it
    names OutOfBounds, "not a crash".  The code has no exception of that
    name and no bounds check; [is_panic e] tells the panic apart from an
    exception that derives from [Exception]. *)
Definition is_panic (e : exception) : bool :=
  match e with
  | PanicException => true
  | DerivationExhausted => false
  end.

(** The byte whose value is [z mod 256]. *)
Definition byte_of_Z (z : Z) : byte :=
  match Byte.of_N (Z.to_N (z mod 256)) with
  | Some b => b
  | None => x00
  end.

(** The [n] low-order bytes of [z], least significant first. *)
Fixpoint int_to_bytes_little (n : nat) (z : Z) : bytes :=
  match n with
  | O => []
  | S n' => byte_of_Z z :: int_to_bytes_little n' (z / 256)
  end.

(** The canonical layout of the specification, written from its words (the
    repository has no encoder): an 8-byte discriminator region holding
    [disc], then the fields in the order of the table, integers
    little-endian, 161 bytes in all. *)
Definition encode (disc : Z) (c : Config) : bytes :=
  int_to_bytes_little 8 disc
  ++ Pubkey.to_bytes (admin c)
  ++ Pubkey.to_bytes (restaking_program c)
  ++ int_to_bytes_little 8 (epoch_length c)
  ++ int_to_bytes_little 8 (num_vaults c)
  ++ int_to_bytes_little 2 (deposit_withdrawal_fee_cap_bps c)
  ++ int_to_bytes_little 2 (fee_rate_of_change_bps c)
  ++ int_to_bytes_little 2 (fee_bump_bps c)
  ++ int_to_bytes_little 2 (program_fee_bps c)
  ++ Pubkey.to_bytes (program_fee_wallet c)
  ++ Pubkey.to_bytes (fee_admin c)
  ++ int_to_bytes_little 1 (bump c).

(** The integer fields of [c] fit the widths of the layout. *)
Definition fits_widths (c : Config) : Prop :=
  0 <= epoch_length c < 2 ^ 64 /\
  0 <= num_vaults c < 2 ^ 64 /\
  0 <= deposit_withdrawal_fee_cap_bps c < 2 ^ 16 /\
  0 <= fee_rate_of_change_bps c < 2 ^ 16 /\
  0 <= fee_bump_bps c < 2 ^ 16 /\
  0 <= program_fee_bps c < 2 ^ 16 /\
  0 <= bump c < 2 ^ 8.

(** [c] holds what the fixed offsets of [deserialize] select from [data]. *)
Definition decoded_from (data : bytes) (c : Config) : Prop :=
  Pubkey.to_bytes (admin c) = slice data 8 40 /\
  Pubkey.to_bytes (restaking_program c) = slice data 40 72 /\
  epoch_length c = int_from_bytes_little (slice data 72 80) /\
  num_vaults c = int_from_bytes_little (slice data 80 88) /\
  deposit_withdrawal_fee_cap_bps c = int_from_bytes_little (slice data 88 90) /\
  fee_rate_of_change_bps c = int_from_bytes_little (slice data 90 92) /\
  fee_bump_bps c = int_from_bytes_little (slice data 92 94) /\
  program_fee_bps c = int_from_bytes_little (slice data 94 96) /\
  Pubkey.to_bytes (program_fee_wallet c) = slice data 96 128 /\
  Pubkey.to_bytes (fee_admin c) = slice data 128 160 /\
  bump c = int_from_bytes_little (slice data 160 161).

(** The example scenario of the specification: a 161-byte buffer whose
    bytes 8-39 are [0x01], bytes 40-71 are [0x02], bytes 72-79 are
    [100, 0, 0, 0, 0, 0, 0, 0], and whose byte at [bump_index] is [0x05]. *)
Definition scenario (bump_index : nat) (data : bytes) : Prop :=
  length data = 161%nat /\
  slice data 8 40 = repeat x01 32 /\
  slice data 40 72 = repeat x02 32 /\
  slice data 72 80 = [x64; x00; x00; x00; x00; x00; x00; x00] /\
  nth_error data bump_index = Some x05.

(** *** Concrete buffers and values used below *)

Definition zeros (n : nat) : bytes := repeat x00 n.

(** 160 zero bytes: the layout without its last byte. *)
Definition buffer_160 : bytes := zeros 160.

(** The buffer of the example scenario as the specification words it: the
    byte [0x05] sits at index 144; every byte not mentioned is zero. *)
Definition scenario_buffer_144 : bytes :=
  zeros 8 ++ repeat x01 32 ++ repeat x02 32
  ++ [x64; x00; x00; x00; x00; x00; x00; x00]
  ++ zeros 64 ++ [x05] ++ zeros 16.

(** The same scenario with [0x05] at index 160, where [bump] is read. *)
Definition scenario_buffer_160 : bytes :=
  zeros 8 ++ repeat x01 32 ++ repeat x02 32
  ++ [x64; x00; x00; x00; x00; x00; x00; x00]
  ++ zeros 80 ++ [x05].


Definition key_of (b : byte) : Pubkey.t :=
  Pubkey.mk (repeat b 32) (repeat_length b 32).

(** Three bytes that follow a complete account. *)
Definition trailing : bytes := [xff; xfe; xfd].

Definition sample_config : Config :=
  mkConfig (key_of x01) (key_of x02) 100 7 4660 25 10 30
           (key_of x03) (key_of x04) 5.

(** Two stand-ins for the derivation primitive. *)
Definition primitive_constant (pda : Pubkey.t) (b : Z)
  (_ : list bytes) (_ : Pubkey.t) : result (Pubkey.t * Z) := Ok (pda, b).

Definition primitive_echo (sds : list bytes) (program_id : Pubkey.t)
  : result (Pubkey.t * Z) :=
  match sds with
  | [_] => Ok (program_id, 255)
  | _ => Raise DerivationExhausted
  end.

(* ================================================================== *)
(** ** Display *)

(** The newline character of the f-string pieces. *)
Definition LF : string := String (Ascii.ascii_of_nat 10) EmptyString.

(** [str(n)] for an [int]: decimal digits, with a leading minus sign for a
    negative number. *)
Definition int_str (n : Z) : string :=
  DecimalString.NilZero.string_of_int (Z.to_int n).

Section Display.

(** [str(key)] for a [Pubkey] of [solders], its base-58 rendering, which is
    outside this repository. *)
Variable Pubkey_str : Pubkey.t -> string.

(** [Config.__str__(self)]: the eleven fields, one per line, each line
    ended by a comma. *)
Definition __str__ (self : Config) : string :=
  ("Config(" ++ LF
   ++ "  admin=" ++ Pubkey_str (admin self) ++ "," ++ LF
   ++ "  restaking_program=" ++ Pubkey_str (restaking_program self) ++ "," ++ LF
   ++ "  epoch_length=" ++ int_str (epoch_length self) ++ "," ++ LF
   ++ "  num_vaults=" ++ int_str (num_vaults self) ++ "," ++ LF
   ++ "  deposit_withdrawal_fee_cap_bps="
        ++ int_str (deposit_withdrawal_fee_cap_bps self) ++ "," ++ LF
   ++ "  fee_rate_of_change_bps="
        ++ int_str (fee_rate_of_change_bps self) ++ "," ++ LF
   ++ "  fee_bump_bps=" ++ int_str (fee_bump_bps self) ++ "," ++ LF
   ++ "  program_fee_bps=" ++ int_str (program_fee_bps self) ++ "," ++ LF
   ++ "  program_fee_wallet=" ++ Pubkey_str (program_fee_wallet self) ++ "," ++ LF
   ++ "  fee_admin=" ++ Pubkey_str (fee_admin self) ++ "," ++ LF
   ++ "  bump=" ++ int_str (bump self) ++ "," ++ LF
   ++ ")")%string.

End Display.

(** [occurs a s]: the character [a] occurs in [s]. *)
Fixpoint occurs (a : Ascii.ascii) (s : string) : bool :=
  match s with
  | EmptyString => false
  | String ch rest => Ascii.eqb a ch || occurs a rest
  end.

(** *** A rendering of keys used as an instance below *)

(** The hexadecimal digit of a value below 16. *)
Definition hex_digit (n : N) : Ascii.ascii :=
  match String.get (N.to_nat n) "0123456789abcdef" with
  | Some ch => ch
  | None => "0"%char
  end.

(** The value of a hexadecimal digit. *)
Definition hex_value (ch : Ascii.ascii) : N :=
  let n := Ascii.N_of_ascii ch in
  if (n <? 58)%N then n - 48 else n - 87.

(** [bs.hex()]: two lower-case hexadecimal digits per byte. *)
Fixpoint bytes_hex (bs : bytes) : string :=
  match bs with
  | [] => EmptyString
  | b :: rest =>
      String (hex_digit (Byte.to_N b / 16))
        (String (hex_digit (Byte.to_N b mod 16)) (bytes_hex rest))
  end.

Definition Pubkey_hex (key : Pubkey.t) : string :=
  bytes_hex (Pubkey.to_bytes key).

(** The [Config] read back from the canonical layout of [sample_config]. *)
Definition sample_config_decoded : Config :=
  match deserialize (encode discriminator sample_config) with
  | Ok c => c
  | Raise _ => sample_config
  end.

(* ================================================================== *)
(** ** Slices *)

Lemma length_slice (data : bytes) (start stop : nat) :
  length (slice data start stop) = Nat.min (stop - start) (length data - start).
Proof.
  unfold slice. now rewrite length_firstn, length_skipn.
Qed.

Lemma length_slice_full (data : bytes) (start stop : nat) :
  (start <= stop)%nat -> (stop <= length data)%nat ->
  length (slice data start stop) = (stop - start)%nat.
Proof.
  intros Hs Hl. rewrite length_slice. lia.
Qed.

Lemma length_slice_le (data : bytes) (start stop : nat) :
  (length (slice data start stop) <= stop - start)%nat.
Proof.
  rewrite length_slice. lia.
Qed.

Lemma nth_error_slice (data : bytes) (start stop i : nat) :
  nth_error (slice data start stop) i =
  if (i <? stop - start)%nat then nth_error data (start + i) else None.
Proof.
  unfold slice. rewrite nth_error_firstn, nth_error_skipn. reflexivity.
Qed.

(** Two buffers that agree on the indices of a window have the same slices
    inside that window. *)
Lemma slice_ext (d1 d2 : bytes) (lo hi start stop : nat) :
  (forall i, (lo <= i < hi)%nat -> nth_error d1 i = nth_error d2 i) ->
  (lo <= start)%nat -> (stop <= hi)%nat ->
  slice d1 start stop = slice d2 start stop.
Proof.
  intros Hagree Hlo Hhi. apply nth_error_ext. intro i.
  rewrite !nth_error_slice.
  destruct (Nat.ltb_spec i (stop - start)) as [Hi | Hi]; [ | reflexivity ].
  apply Hagree. lia.
Qed.

(** A slice that ends inside the first part of a concatenation does not see
    the second part. *)
Lemma slice_app_l (d extra : bytes) (start stop : nat) :
  (stop <= length d)%nat ->
  slice (d ++ extra) start stop = slice d start stop.
Proof.
  intro Hstop. apply nth_error_ext. intro i. rewrite !nth_error_slice.
  destruct (Nat.ltb_spec i (stop - start)) as [Hi | Hi]; [ | reflexivity ].
  apply nth_error_app1. lia.
Qed.

(** Cursor lemmas for a buffer given as a concatenation of fields. *)
Lemma slice_app_here (field rest : bytes) (w : nat) :
  length field = w -> slice (field ++ rest) 0 w = field.
Proof.
  intro Hw. unfold slice. rewrite Nat.sub_0_r. cbn [skipn].
  rewrite firstn_app, firstn_all2 by lia.
  replace (w - length field)%nat with 0%nat by lia.
  cbn [firstn]. apply app_nil_r.
Qed.

Lemma slice_app_skip (field rest : bytes) (start stop : nat) :
  (length field <= start)%nat ->
  slice (field ++ rest) start stop =
  slice rest (start - length field) (stop - length field).
Proof.
  intro Hle. unfold slice. rewrite skipn_app.
  rewrite skipn_all2 by lia. cbn [app]. f_equal. lia.
Qed.

Lemma slice_whole (field : bytes) (w : nat) :
  length field = w -> slice field 0 w = field.
Proof.
  intro Hw. unfold slice. rewrite Nat.sub_0_r. cbn [skipn].
  apply firstn_all2. lia.
Qed.

(** The one-byte slice at an index that exists. *)
Lemma slice_one (data : bytes) (i : nat) (b : byte) :
  nth_error data i = Some b -> slice data i (S i) = [b].
Proof.
  intro Hb. apply nth_error_ext. intro j. rewrite nth_error_slice.
  replace (S i - i)%nat with 1%nat by lia.
  destruct j as [ | j ].
  - cbn [Nat.ltb Nat.leb nth_error]. now rewrite Nat.add_0_r.
  - cbn [Nat.ltb Nat.leb]. now destruct j.
Qed.

(** Agreement of two buffers on a window, from the window itself. *)
Lemma window_agree (d1 d2 : bytes) (lo hi : nat) :
  slice d1 lo hi = slice d2 lo hi ->
  forall i, (lo <= i < hi)%nat -> nth_error d1 i = nth_error d2 i.
Proof.
  intros E i Hi.
  assert (H : nth_error (slice d1 lo hi) (i - lo) =
              nth_error (slice d2 lo hi) (i - lo)) by now rewrite E.
  rewrite !nth_error_slice in H.
  destruct (Nat.ltb_spec (i - lo) (hi - lo)) as [ _ | Hge ]; [ | lia ].
  now replace (lo + (i - lo))%nat with i in H by lia.
Qed.

(* ================================================================== *)
(** ** Public keys *)

Lemma Pubkey_ext (p q : Pubkey.t) :
  Pubkey.to_bytes p = Pubkey.to_bytes q -> p = q.
Proof.
  destruct p as [rp Hp], q as [rq Hq]. cbn. intro E. subst rq.
  f_equal. apply UIP_dec. exact Nat.eq_dec.
Qed.

Lemma from_bytes_ok (raw : bytes) :
  length raw = Pubkey.LENGTH ->
  exists pk, Pubkey.from_bytes raw = Ok pk /\ Pubkey.to_bytes pk = raw.
Proof.
  intro H. unfold Pubkey.from_bytes.
  destruct (Nat.eq_dec (length raw) Pubkey.LENGTH) as [E | N].
  - eexists. split; reflexivity.
  - contradiction.
Qed.

Lemma from_bytes_raise (raw : bytes) :
  length raw <> Pubkey.LENGTH ->
  Pubkey.from_bytes raw = Raise PanicException.
Proof.
  intro H. unfold Pubkey.from_bytes.
  destruct (Nat.eq_dec (length raw) Pubkey.LENGTH) as [E | N].
  - contradiction.
  - reflexivity.
Qed.

Lemma from_bytes_to_bytes (pk : Pubkey.t) :
  Pubkey.from_bytes (Pubkey.to_bytes pk) = Ok pk.
Proof.
  destruct (from_bytes_ok (Pubkey.to_bytes pk) (Pubkey.to_bytes_length pk))
    as (pk' & E & Hb).
  rewrite E. f_equal. now apply Pubkey_ext.
Qed.

(* ================================================================== *)
(** ** Integers from bytes *)

Lemma byte_val_range (b : byte) : 0 <= byte_val b < 256.
Proof.
  unfold byte_val. pose proof (Byte.to_N_bounded b) as H.
  split; [ apply N2Z.is_nonneg | ].
  apply N2Z.inj_le in H. change (Z.of_N 255) with 255 in H. lia.
Qed.

Lemma int_from_bytes_little_range (bs : bytes) :
  0 <= int_from_bytes_little bs < 256 ^ Z.of_nat (length bs).
Proof.
  induction bs as [ | b rest IH ].
  - cbn. lia.
  - cbn [int_from_bytes_little length]. rewrite Nat2Z.inj_succ, Z.pow_succ_r by lia.
    pose proof (byte_val_range b). lia.
Qed.

(** An integer read from at most [w] bytes is below [256 ^ w]. *)
Lemma int_from_bytes_little_width (bs : bytes) (w : nat) :
  (length bs <= w)%nat ->
  0 <= int_from_bytes_little bs < 256 ^ Z.of_nat w.
Proof.
  intro Hw. pose proof (int_from_bytes_little_range bs) as [H0 H1].
  split; [ exact H0 | ].
  eapply Z.lt_le_trans; [ exact H1 | ].
  apply Z.pow_le_mono_r; lia.
Qed.

(** On at most one byte the two byte orders read the same integer. *)
Lemma int_from_bytes_big_short (bs : bytes) :
  (length bs <= 1)%nat -> int_from_bytes_big bs = int_from_bytes_little bs.
Proof.
  destruct bs as [ | b [ | b' rest ] ]; cbn; intro H; [ reflexivity | lia | lia ].
Qed.

Lemma byte_val_of_Z (z : Z) : byte_val (byte_of_Z z) = z mod 256.
Proof.
  unfold byte_of_Z, byte_val.
  assert (Hr : 0 <= z mod 256 < 256) by (apply Z.mod_pos_bound; lia).
  destruct (Byte.of_N (Z.to_N (z mod 256))) as [ b | ] eqn:E.
  - apply Byte.to_of_N in E. rewrite E. apply Z2N.id. lia.
  - apply Byte.of_N_None_iff in E. exfalso.
    apply N2Z.inj_lt in E. rewrite Z2N.id in E by lia.
    change (Z.of_N 255) with 255 in E. lia.
Qed.

Lemma length_int_to_bytes_little (n : nat) (z : Z) :
  length (int_to_bytes_little n z) = n.
Proof.
  revert z. induction n as [ | n IH ]; intro z; cbn; [ reflexivity | now rewrite IH ].
Qed.

Lemma int_from_to_bytes_little (n : nat) (z : Z) :
  0 <= z < 256 ^ Z.of_nat n ->
  int_from_bytes_little (int_to_bytes_little n z) = z.
Proof.
  revert z. induction n as [ | n IH ]; intros z Hz.
  - cbn in *. lia.
  - cbn [int_to_bytes_little int_from_bytes_little].
    rewrite byte_val_of_Z, IH.
    + pose proof (Z.div_mod z 256). lia.
    + rewrite Nat2Z.inj_succ, Z.pow_succ_r in Hz by lia.
      split; [ apply Z.div_pos; lia | apply Z.div_lt_upper_bound; lia ].
Qed.

(* ================================================================== *)
(** ** The decoder, field by field *)

(** [deserialize] with its cursor arithmetic carried out. *)
Lemma deserialize_offsets (data : bytes) :
  deserialize data =
  (a <- Pubkey.from_bytes (slice data 8 40) ;;
   r <- Pubkey.from_bytes (slice data 40 72) ;;
   w <- Pubkey.from_bytes (slice data 96 128) ;;
   f <- Pubkey.from_bytes (slice data 128 160) ;;
   Ok (mkConfig a r
         (int_from_bytes (slice data 72 80) little)
         (int_from_bytes (slice data 80 88) little)
         (int_from_bytes (slice data 88 90) little)
         (int_from_bytes (slice data 90 92) little)
         (int_from_bytes (slice data 92 94) little)
         (int_from_bytes (slice data 94 96) little)
         w f
         (int_from_bytes (slice data 160 161) big))).
Proof. reflexivity. Qed.

(** The decoder reads nothing but slices between offsets 8 and 161. *)
Lemma deserialize_congr (d1 d2 : bytes) :
  (forall start stop, (8 <= start)%nat -> (stop <= 161)%nat ->
     slice d1 start stop = slice d2 start stop) ->
  deserialize d1 = deserialize d2.
Proof.
  intro H. rewrite !deserialize_offsets.
  rewrite (H 8 40)%nat, (H 40 72)%nat, (H 72 80)%nat, (H 80 88)%nat,
    (H 88 90)%nat, (H 90 92)%nat, (H 92 94)%nat, (H 94 96)%nat,
    (H 96 128)%nat, (H 128 160)%nat, (H 160 161)%nat by lia.
  reflexivity.
Qed.

(** From 160 bytes on, every key read succeeds and so does the decoder. *)
Lemma deserialize_ok (data : bytes) :
  (160 <= length data)%nat ->
  exists c, deserialize data = Ok c /\ decoded_from data c.
Proof.
  intro Hlen. rewrite deserialize_offsets.
  destruct (from_bytes_ok (slice data 8 40)) as (a & Ea & Ha);
    [ rewrite length_slice_full; [ reflexivity | lia | lia ] | ].
  destruct (from_bytes_ok (slice data 40 72)) as (r & Er & Hr);
    [ rewrite length_slice_full; [ reflexivity | lia | lia ] | ].
  destruct (from_bytes_ok (slice data 96 128)) as (w & Ew & Hw);
    [ rewrite length_slice_full; [ reflexivity | lia | lia ] | ].
  destruct (from_bytes_ok (slice data 128 160)) as (f & Ef & Hf);
    [ rewrite length_slice_full; [ reflexivity | lia | lia ] | ].
  rewrite Ea, Er, Ew, Ef. cbn [bind].
  eexists. split; [ reflexivity | ].
  unfold decoded_from. cbn [admin restaking_program epoch_length num_vaults
    deposit_withdrawal_fee_cap_bps fee_rate_of_change_bps fee_bump_bps
    program_fee_bps program_fee_wallet fee_admin bump int_from_bytes].
  repeat split; try assumption.
  apply int_from_bytes_big_short.
  pose proof (length_slice_le data 160 161). lia.
Qed.

(** Below 160 bytes one of the four key reads meets the end of the buffer. *)
Lemma deserialize_short (data : bytes) :
  (length data < 160)%nat ->
  deserialize data = Raise PanicException.
Proof.
  intro Hlen. rewrite deserialize_offsets.
  destruct (Nat.lt_ge_cases (length data) 40) as [H40 | H40].
  { rewrite from_bytes_raise; [ reflexivity | ].
    rewrite length_slice. unfold Pubkey.LENGTH. lia. }
  destruct (from_bytes_ok (slice data 8 40)) as (a & Ea & _);
    [ rewrite length_slice_full; [ reflexivity | lia | lia ] | ].
  rewrite Ea. cbn [bind].
  destruct (Nat.lt_ge_cases (length data) 72) as [H72 | H72].
  { rewrite from_bytes_raise; [ reflexivity | ].
    rewrite length_slice. unfold Pubkey.LENGTH. lia. }
  destruct (from_bytes_ok (slice data 40 72)) as (r & Er & _);
    [ rewrite length_slice_full; [ reflexivity | lia | lia ] | ].
  rewrite Er. cbn [bind].
  destruct (Nat.lt_ge_cases (length data) 128) as [H128 | H128].
  { rewrite from_bytes_raise; [ reflexivity | ].
    rewrite length_slice. unfold Pubkey.LENGTH. lia. }
  destruct (from_bytes_ok (slice data 96 128)) as (w & Ew & _);
    [ rewrite length_slice_full; [ reflexivity | lia | lia ] | ].
  rewrite Ew. cbn [bind].
  rewrite from_bytes_raise; [ reflexivity | ].
  rewrite length_slice. unfold Pubkey.LENGTH. lia.
Qed.

(** A successful decode had at least 160 bytes to read from. *)
Lemma deserialize_inv (data : bytes) (c : Config) :
  deserialize data = Ok c ->
  (160 <= length data)%nat /\ decoded_from data c.
Proof.
  intro H. destruct (Nat.lt_ge_cases (length data) 160) as [Hlt | Hge].
  - pose proof (deserialize_short data Hlt) as E. congruence.
  - split; [ exact Hge | ].
    destruct (deserialize_ok data Hge) as (c' & E & Hd). congruence.
Qed.

(** Every exception of the decoder is the panic of a short key read. *)
Lemma deserialize_raise_inv (data : bytes) (e : exception) :
  deserialize data = Raise e ->
  (length data < 160)%nat /\ e = PanicException.
Proof.
  intro H. destruct (Nat.lt_ge_cases (length data) 160) as [Hlt | Hge].
  - split; [ exact Hlt | ].
    pose proof (deserialize_short data Hlt) as E. congruence.
  - destruct (deserialize_ok data Hge) as (c & E & _). congruence.
Qed.

(* ================================================================== *)
(** ** The canonical layout *)

Lemma length_encode (disc : Z) (c : Config) :
  length (encode disc c) = 161%nat.
Proof.
  unfold encode.
  rewrite !length_app, !length_int_to_bytes_little, !Pubkey.to_bytes_length.
  reflexivity.
Qed.

Ltac field_lengths :=
  rewrite ?length_int_to_bytes_little, ?Pubkey.to_bytes_length;
  unfold Pubkey.LENGTH.

(** Walk the cursor over the fields of [encode] up to the one a slice
    selects. *)
Ltac seek_field :=
  unfold encode;
  repeat (rewrite slice_app_skip by (field_lengths; lia);
          field_lengths; cbn [Nat.sub]);
  first [ apply slice_app_here | apply slice_whole ];
  field_lengths; reflexivity.

Lemma encode_fields (disc : Z) (c : Config) :
  let data := encode disc c in
  slice data 8 40 = Pubkey.to_bytes (admin c) /\
  slice data 40 72 = Pubkey.to_bytes (restaking_program c) /\
  slice data 72 80 = int_to_bytes_little 8 (epoch_length c) /\
  slice data 80 88 = int_to_bytes_little 8 (num_vaults c) /\
  slice data 88 90 = int_to_bytes_little 2 (deposit_withdrawal_fee_cap_bps c) /\
  slice data 90 92 = int_to_bytes_little 2 (fee_rate_of_change_bps c) /\
  slice data 92 94 = int_to_bytes_little 2 (fee_bump_bps c) /\
  slice data 94 96 = int_to_bytes_little 2 (program_fee_bps c) /\
  slice data 96 128 = Pubkey.to_bytes (program_fee_wallet c) /\
  slice data 128 160 = Pubkey.to_bytes (fee_admin c) /\
  slice data 160 161 = int_to_bytes_little 1 (bump c).
Proof.
  cbv zeta. repeat split; seek_field.
Qed.

(* ================================================================== *)
(** ** Short buffers *)

(** C1, as stated, fails at 160 bytes: the buffer [buffer_160] is shorter
    than 161 bytes, yet [deserialize] returns a [Config], with [bump] read
    as [0] from the empty slice [data[160:161]]. *)
Lemma deserialize_160_succeeds :
  (length buffer_160 < 161)%nat /\
  exists c, deserialize buffer_160 = Ok c /\ bump c = 0.
Proof.
  split.
  - unfold buffer_160, zeros. rewrite repeat_length. lia.
  - destruct (deserialize_ok buffer_160) as (c & E & Hd).
    + unfold buffer_160, zeros. rewrite repeat_length. lia.
    + exists c. split; [ exact E | ].
      destruct Hd as (_ & _ & _ & _ & _ & _ & _ & _ & _ & _ & Hb).
      rewrite Hb. reflexivity.
Qed.

(** C1, amended: on every buffer shorter than 160 bytes [deserialize]
    fails, with the [PanicException] of a key read that met the end of the
    buffer; on a buffer of exactly 160 bytes it returns a [Config] whose
    [bump] is 0; and whatever the buffer, that [PanicException] is the only
    exception [deserialize] raises, and it raises it on buffers shorter
    than 160 bytes only. *)
Theorem deserialize_short_buffer (data : bytes) :
  ((length data < 160)%nat -> deserialize data = Raise PanicException) /\
  (length data = 160%nat ->
     exists c, deserialize data = Ok c /\ bump c = 0) /\
  (forall e, deserialize data = Raise e ->
     e = PanicException /\ (length data < 160)%nat).
Proof.
  split; [ | split ].
  - apply deserialize_short.
  - intro Hlen. destruct (deserialize_ok data) as (c & E & Hd); [ lia | ].
    exists c. split; [ exact E | ].
    destruct Hd as (_ & _ & _ & _ & _ & _ & _ & _ & _ & _ & Hb).
    rewrite Hb. unfold slice. rewrite skipn_all2 by lia. reflexivity.
  - intros e E. apply deserialize_raise_inv in E.
    destruct E as (Hlen & ->). now split.
Qed.

Lemma deserialize_short_buffer_witness :
  deserialize (zeros 159) = Raise PanicException /\
  (exists c, deserialize buffer_160 = Ok c /\ bump c = 0) /\
  (PanicException = PanicException /\ (length (zeros 96) < 160)%nat).
Proof.
  split; [ | split ].
  - apply (proj1 (deserialize_short_buffer (zeros 159))).
    vm_compute. lia.
  - apply (proj1 (proj2 (deserialize_short_buffer buffer_160))).
    reflexivity.
  - apply (proj2 (proj2 (deserialize_short_buffer (zeros 96))) PanicException).
    reflexivity.
Defined.

(* ================================================================== *)
(** ** Round trip through the canonical layout *)

(** C2: for every [Config] whose integer fields fit their widths, the
    canonical encoding is 161 bytes long and [deserialize] gives the
    [Config] back, field for field, whatever the discriminator region
    holds. *)
Theorem deserialize_encode (disc : Z) (c : Config) :
  fits_widths c ->
  length (encode disc c) = 161%nat /\ deserialize (encode disc c) = Ok c.
Proof.
  intros (He & Hn & Hd & Hr & Hb & Hp & Hbump).
  split; [ apply length_encode | ].
  rewrite deserialize_offsets.
  destruct (encode_fields disc c)
    as (Ea & Er & Ee & En & Ed & Ef & Eb & Ep & Ew & Efa & Ebump).
  rewrite Ea, Er, Ee, En, Ed, Ef, Eb, Ep, Ew, Efa, Ebump.
  rewrite !from_bytes_to_bytes. cbn [bind int_from_bytes].
  rewrite int_from_bytes_big_short
    by (rewrite length_int_to_bytes_little; lia).
  rewrite !int_from_to_bytes_little by assumption.
  destruct c; reflexivity.
Qed.

Lemma deserialize_encode_witness :
  fits_widths sample_config /\
  length (encode discriminator sample_config) = 161%nat /\
  deserialize (encode discriminator sample_config) = Ok sample_config.
Proof.
  assert (H : fits_widths sample_config)
    by (unfold fits_widths, sample_config; cbn; lia).
  split; [ exact H | ].
  exact (deserialize_encode discriminator sample_config H).
Defined.

(* ================================================================== *)
(** ** The example scenario *)

(** C3, as stated, fails: [scenario_buffer_144] is the buffer the claim
    describes, with [0x05] at index 144 (inside [fee_admin]) and zeros
    elsewhere, and its [bump], read at index 160, is [0], not [5]. *)
Lemma scenario_144_bump_not_5 :
  scenario 144 scenario_buffer_144 /\
  exists c, deserialize scenario_buffer_144 = Ok c /\ bump c = 0 /\ bump c <> 5.
Proof.
  split.
  - repeat split.
  - destruct (deserialize_ok scenario_buffer_144) as (c & E & Hd).
    + vm_compute. lia.
    + exists c. split; [ exact E | ].
      destruct Hd as (_ & _ & _ & _ & _ & _ & _ & _ & _ & _ & Hb).
      rewrite Hb. split; [ reflexivity | discriminate ].
Qed.

(** C3, amended: for every 161-byte buffer whose bytes 8-39 are [0x01],
    whose bytes 40-71 are [0x02], whose bytes 72-79 are
    [100, 0, 0, 0, 0, 0, 0, 0] and whose byte 160 is [0x05], [deserialize]
    returns a [Config] with [admin] 32 bytes of [0x01], [restaking_program]
    32 bytes of [0x02], [epoch_length] 100 and [bump] 5. *)
Theorem deserialize_scenario (data : bytes) :
  scenario 160 data ->
  exists c, deserialize data = Ok c /\
    Pubkey.to_bytes (admin c) = repeat x01 32 /\
    Pubkey.to_bytes (restaking_program c) = repeat x02 32 /\
    epoch_length c = 100 /\
    bump c = 5.
Proof.
  intros (Hlen & Ha & Hr & He & Hb).
  destruct (deserialize_ok data) as (c & E & Hd); [ lia | ].
  exists c. split; [ exact E | ].
  destruct Hd as (Da & Dr & De & _ & _ & _ & _ & _ & _ & _ & Db).
  rewrite Da, Dr, De, Db, Ha, Hr, He, (slice_one data 160 x05 Hb).
  repeat split.
Qed.

Lemma deserialize_scenario_witness :
  scenario 160 scenario_buffer_160 /\
  exists c, deserialize scenario_buffer_160 = Ok c /\
    Pubkey.to_bytes (admin c) = repeat x01 32 /\
    Pubkey.to_bytes (restaking_program c) = repeat x02 32 /\
    epoch_length c = 100 /\
    bump c = 5.
Proof.
  assert (H : scenario 160 scenario_buffer_160) by (repeat split).
  split; [ exact H | exact (deserialize_scenario scenario_buffer_160 H) ].
Defined.

(* ================================================================== *)
(** ** Byte order *)



(* ================================================================== *)
(** ** Trailing bytes *)

Lemma deserialize_app (data extra : bytes) :
  (161 <= length data)%nat ->
  deserialize (data ++ extra) = deserialize data.
Proof.
  intro Hlen. apply deserialize_congr. intros start stop _ Hstop.
  apply slice_app_l. lia.
Qed.

(** C5: [deserialize] succeeds on every buffer of length [161 + k], for
    every [k >= 0] (so on every buffer of exactly 161 bytes), and its
    result is the result of decoding the first 161 bytes alone. *)
Theorem deserialize_trailing_ignored (data : bytes) (k : nat) :
  length data = (161 + k)%nat ->
  exists c, deserialize data = Ok c /\ deserialize (firstn 161 data) = Ok c.
Proof.
  intro Hlen.
  destruct (deserialize_ok data) as (c & E & _); [ lia | ].
  exists c. split; [ exact E | ].
  rewrite <- E. rewrite <- (firstn_skipn 161 data) at 2.
  symmetry. apply deserialize_app.
  rewrite length_firstn. lia.
Qed.

Lemma deserialize_trailing_ignored_witness :
  exists c, deserialize (scenario_buffer_160 ++ trailing) = Ok c /\
    deserialize (firstn 161 (scenario_buffer_160 ++ trailing)) = Ok c.
Proof.
  apply (deserialize_trailing_ignored (scenario_buffer_160 ++ trailing) 3).
  reflexivity.
Defined.

(* ================================================================== *)
(** ** The empty buffer *)

(** C6, as stated, fails: on the empty buffer the failure is not a typed
    error but the panic of [Pubkey.from_bytes], raised as
    [PanicException]; [deserialize] raises nothing else there. *)
Lemma deserialize_empty_panics :
  deserialize [] = Raise PanicException /\
  ~ (exists e, deserialize [] = Raise e /\ is_panic e = false).
Proof.
  split; [ reflexivity | ].
  intros (e & E & Hp).
  assert (He : e = PanicException) by (cbv in E; congruence).
  subst e. discriminate Hp.
Qed.

(** C6, amended: on the empty buffer [deserialize] fails at the first
    field read, that of [admin] at bytes 8-39: the slice is empty,
    [Pubkey.from_bytes] panics on it, and [deserialize] raises that
    [PanicException]; it returns no [Config]. *)
Theorem deserialize_empty :
  deserialize [] = Raise PanicException /\
  Pubkey.from_bytes (slice [] 8 (8 + 32)) = Raise PanicException /\
  (forall c, deserialize [] <> Ok c).
Proof.
  split; [ reflexivity | split; [ reflexivity | ] ].
  intros c E. cbv in E. discriminate E.
Qed.

(* ================================================================== *)
(** ** Seeds and address derivation *)

(** C7: [seeds()] is the one-element sequence holding the six bytes of the
    string "config"; it takes no [Config] and depends on none. *)
Theorem seeds_config :
  seeds = [[x63; x6f; x6e; x66; x69; x67]] /\
  length seeds = 1%nat /\
  map string_of_list_byte seeds = ["config"%string].
Proof.
  repeat split.
Qed.

(** C8: two calls of [find_program_address] with the same program
    identifier, for which the derivation primitive gives the same answer,
    have the same outcome.  When the primitive answers with an address and
    a bump, both calls return the triple of that address, that bump and
    [seeds()]; when it raises, both raise its exception; and a triple is
    returned in no other case. *)
Theorem find_program_address_deterministic
    (derive1 derive2 : list bytes -> Pubkey.t -> result (Pubkey.t * Z))
    (program_id : Pubkey.t) :
  derive1 seeds program_id = derive2 seeds program_id ->
  find_program_address derive1 program_id =
    find_program_address derive2 program_id /\
  (forall pda b,
     derive1 seeds program_id = Ok (pda, b) ->
     find_program_address derive1 program_id = Ok (pda, b, seeds) /\
     find_program_address derive2 program_id = Ok (pda, b, seeds)) /\
  (forall e,
     derive1 seeds program_id = Raise e ->
     find_program_address derive1 program_id = Raise e /\
     find_program_address derive2 program_id = Raise e) /\
  (forall pda b sds,
     find_program_address derive1 program_id = Ok (pda, b, sds) ->
     sds = seeds /\ derive1 seeds program_id = Ok (pda, b)).
Proof.
  intro Hsame. unfold find_program_address. cbv zeta.
  rewrite <- Hsame. repeat split.
  - rewrite H. reflexivity.
  - rewrite H. reflexivity.
  - rewrite H. reflexivity.
  - rewrite H. reflexivity.
  - destruct (derive1 seeds program_id) as [ [pda' b'] | e ];
      cbn [bind] in H; congruence.
  - destruct (derive1 seeds program_id) as [ [pda' b'] | e ];
      cbn [bind] in H; congruence.
Qed.

Lemma find_program_address_deterministic_witness :
  find_program_address (primitive_constant (key_of x07) 255) (key_of x07) =
    Ok (key_of x07, 255, seeds) /\
  find_program_address primitive_echo (key_of x07) =
    Ok (key_of x07, 255, seeds).
Proof.
  apply (find_program_address_deterministic
           (primitive_constant (key_of x07) 255) primitive_echo (key_of x07)).
  - reflexivity.
  - reflexivity.
Defined.

(* ================================================================== *)
(** ** The discriminator region *)

(** C9: two buffers of at least 161 bytes that agree on the bytes 8 to 160
    decode to the same [Config], whatever their bytes 0 to 7 (and whatever
    follows byte 160). *)
Theorem deserialize_ignores_discriminator (d1 d2 : bytes) :
  (161 <= length d1)%nat ->
  (161 <= length d2)%nat ->
  (forall i, (8 <= i < 161)%nat -> nth_error d1 i = nth_error d2 i) ->
  exists c, deserialize d1 = Ok c /\ deserialize d2 = Ok c.
Proof.
  intros H1 H2 Hagree.
  destruct (deserialize_ok d1) as (c & E & _); [ lia | ].
  exists c. split; [ exact E | ].
  rewrite <- E. symmetry. apply deserialize_congr.
  intros start stop Hstart Hstop.
  now apply (slice_ext d1 d2 8 161).
Qed.

Lemma deserialize_ignores_discriminator_witness :
  exists c,
    deserialize (encode 1 sample_config) = Ok c /\
    deserialize (encode 72057594037927935 sample_config) = Ok c.
Proof.
  apply deserialize_ignores_discriminator.
  - vm_compute. lia.
  - vm_compute. lia.
  - apply window_agree. reflexivity.
Defined.

(* ================================================================== *)
(** ** Field widths *)

(** C10: every [Config] that [deserialize] returns has [epoch_length] and
    [num_vaults] in [0, 2^64), the four basis-point fields in [0, 2^16)
    and [bump] in [0, 2^8). *)
Theorem deserialize_fits_widths (data : bytes) (c : Config) :
  deserialize data = Ok c -> fits_widths c.
Proof.
  intro E. apply deserialize_inv in E.
  destruct E as (_ & _ & _ & De & Dn & Dd & Df & Db & Dp & _ & _ & Dbump).
  unfold fits_widths.
  rewrite De, Dn, Dd, Df, Db, Dp, Dbump.
  change (2 ^ 64) with (256 ^ Z.of_nat 8).
  change (2 ^ 16) with (256 ^ Z.of_nat 2).
  change (2 ^ 8) with (256 ^ Z.of_nat 1).
  assert (W : forall start stop w, (stop - start <= w)%nat ->
            0 <= int_from_bytes_little (slice data start stop)
              < 256 ^ Z.of_nat w).
  { intros start stop w Hw. apply int_from_bytes_little_width.
    pose proof (length_slice_le data start stop). lia. }
  repeat (split; [ apply W; lia | ]).
  apply W. lia.
Qed.

Lemma deserialize_fits_widths_witness :
  exists c, deserialize scenario_buffer_160 = Ok c /\ fits_widths c.
Proof.
  eexists. split.
  - vm_compute. reflexivity.
  - apply (deserialize_fits_widths scenario_buffer_160).
    vm_compute. reflexivity.
Defined.

(* ================================================================== *)
(** ** More on integers and slices *)

Lemma byte_val_inj (b1 b2 : byte) : byte_val b1 = byte_val b2 -> b1 = b2.
Proof.
  unfold byte_val. intro H. apply N2Z.inj in H.
  pose proof (Byte.of_to_N b1) as H1. pose proof (Byte.of_to_N b2) as H2.
  rewrite H in H1. congruence.
Qed.

Lemma byte_of_Z_val (b : byte) : byte_of_Z (byte_val b) = b.
Proof.
  apply byte_val_inj. rewrite byte_val_of_Z.
  apply Z.mod_small. apply byte_val_range.
Qed.

(** Writing back the integer read from [bs], on as many bytes, gives [bs]. *)
Lemma int_to_from_bytes_little (bs : bytes) :
  int_to_bytes_little (length bs) (int_from_bytes_little bs) = bs.
Proof.
  induction bs as [ | b rest IH ]; [ reflexivity | ].
  cbn [length int_to_bytes_little int_from_bytes_little].
  pose proof (byte_val_range b) as Hb.
  assert (Hq : (byte_val b + 256 * int_from_bytes_little rest) / 256
               = int_from_bytes_little rest).
  { rewrite Z.add_comm, (Z.mul_comm 256), Z.div_add_l by lia.
    rewrite Z.div_small by lia. lia. }
  assert (Hr : byte_of_Z (byte_val b + 256 * int_from_bytes_little rest) = b).
  { apply byte_val_inj. rewrite byte_val_of_Z.
    rewrite (Z.mul_comm 256), Z.mod_add by lia.
    apply Z.mod_small. lia. }
  rewrite Hq, Hr, IH. reflexivity.
Qed.

Lemma int_to_from_bytes_little_width (bs : bytes) (w : nat) :
  length bs = w ->
  int_to_bytes_little w (int_from_bytes_little bs) = bs.
Proof.
  intros <-. apply int_to_from_bytes_little.
Qed.

(** On byte strings of one length, reading little-endian is injective. *)
Lemma int_from_bytes_little_inj (bs1 bs2 : bytes) :
  length bs1 = length bs2 ->
  int_from_bytes_little bs1 = int_from_bytes_little bs2 ->
  bs1 = bs2.
Proof.
  intros Hlen Hval.
  rewrite <- (int_to_from_bytes_little bs1), <- (int_to_from_bytes_little bs2).
  now rewrite Hlen, Hval.
Qed.

(** Adjacent slices join. *)
Lemma slice_join (data : bytes) (a b c : nat) :
  (a <= b)%nat -> (b <= c)%nat ->
  slice data a b ++ slice data b c = slice data a c.
Proof.
  intros Hab Hbc. unfold slice.
  replace (c - a)%nat with ((b - a) + (c - b))%nat by lia.
  rewrite <- (firstn_skipn (b - a) (firstn (b - a + (c - b)) (skipn a data))).
  rewrite firstn_firstn, Nat.min_l by lia.
  f_equal.
  rewrite skipn_firstn_comm, skipn_skipn.
  f_equal; [ lia | f_equal; lia ].
Qed.

Lemma slice_from_0 (data : bytes) (n : nat) : slice data 0 n = firstn n data.
Proof.
  unfold slice. now rewrite Nat.sub_0_r.
Qed.

(** The windows of the eleven fields, for a buffer that holds them all. *)
Lemma field_windows_full (data : bytes) :
  (161 <= length data)%nat ->
  length (slice data 72 80) = 8%nat /\
  length (slice data 80 88) = 8%nat /\
  length (slice data 88 90) = 2%nat /\
  length (slice data 90 92) = 2%nat /\
  length (slice data 92 94) = 2%nat /\
  length (slice data 94 96) = 2%nat /\
  length (slice data 160 161) = 1%nat.
Proof.
  intro H. repeat split; rewrite length_slice; lia.
Qed.

(** The bytes 8 to 160 of a buffer of at least 161 bytes are determined by
    the [Config] decoded from it. *)
Lemma decoded_from_payload (d1 d2 : bytes) (c : Config) :
  (161 <= length d1)%nat -> (161 <= length d2)%nat ->
  decoded_from d1 c -> decoded_from d2 c ->
  slice d1 8 161 = slice d2 8 161.
Proof.
  intros H1 H2
    (A1 & R1 & E1 & N1 & D1 & F1 & B1 & P1 & W1 & FA1 & BU1)
    (A2 & R2 & E2 & N2 & D2 & F2 & B2 & P2 & W2 & FA2 & BU2).
  destruct (field_windows_full d1 H1) as (L1a & L1b & L1c & L1d & L1e & L1f & L1g).
  destruct (field_windows_full d2 H2) as (L2a & L2b & L2c & L2d & L2e & L2f & L2g).
  assert (Sa : slice d1 8 40 = slice d2 8 40) by congruence.
  assert (Sr : slice d1 40 72 = slice d2 40 72) by congruence.
  assert (Se : slice d1 72 80 = slice d2 72 80)
    by (apply int_from_bytes_little_inj; congruence).
  assert (Sn : slice d1 80 88 = slice d2 80 88)
    by (apply int_from_bytes_little_inj; congruence).
  assert (Sd : slice d1 88 90 = slice d2 88 90)
    by (apply int_from_bytes_little_inj; congruence).
  assert (Sf : slice d1 90 92 = slice d2 90 92)
    by (apply int_from_bytes_little_inj; congruence).
  assert (Sb : slice d1 92 94 = slice d2 92 94)
    by (apply int_from_bytes_little_inj; congruence).
  assert (Sp : slice d1 94 96 = slice d2 94 96)
    by (apply int_from_bytes_little_inj; congruence).
  assert (Sw : slice d1 96 128 = slice d2 96 128) by congruence.
  assert (Sfa : slice d1 128 160 = slice d2 128 160) by congruence.
  assert (Sbu : slice d1 160 161 = slice d2 160 161)
    by (apply int_from_bytes_little_inj; congruence).
  rewrite <- (slice_join d1 8 40 161), <- (slice_join d2 8 40 161) by lia.
  rewrite <- (slice_join d1 40 72 161), <- (slice_join d2 40 72 161) by lia.
  rewrite <- (slice_join d1 72 80 161), <- (slice_join d2 72 80 161) by lia.
  rewrite <- (slice_join d1 80 88 161), <- (slice_join d2 80 88 161) by lia.
  rewrite <- (slice_join d1 88 90 161), <- (slice_join d2 88 90 161) by lia.
  rewrite <- (slice_join d1 90 92 161), <- (slice_join d2 90 92 161) by lia.
  rewrite <- (slice_join d1 92 94 161), <- (slice_join d2 92 94 161) by lia.
  rewrite <- (slice_join d1 94 96 161), <- (slice_join d2 94 96 161) by lia.
  rewrite <- (slice_join d1 96 128 161), <- (slice_join d2 96 128 161) by lia.
  rewrite <- (slice_join d1 128 160 161), <- (slice_join d2 128 160 161) by lia.
  now rewrite Sa, Sr, Se, Sn, Sd, Sf, Sb, Sp, Sw, Sfa, Sbu.
Qed.

(* ================================================================== *)
(** ** What a decoded [Config] says about its buffer *)

(** X1: decoding loses nothing of the bytes 8 to 160.  Two buffers of at
    least 161 bytes that decode to the same [Config] hold the same byte at
    every index from 8 to 160. *)
Theorem deserialize_payload_injective (d1 d2 : bytes) (c : Config) :
  (161 <= length d1)%nat ->
  (161 <= length d2)%nat ->
  deserialize d1 = Ok c ->
  deserialize d2 = Ok c ->
  forall i, (8 <= i < 161)%nat -> nth_error d1 i = nth_error d2 i.
Proof.
  intros H1 H2 E1 E2.
  apply deserialize_inv in E1. apply deserialize_inv in E2.
  apply window_agree.
  apply (decoded_from_payload d1 d2 c H1 H2); [ apply E1 | apply E2 ].
Qed.

Lemma deserialize_payload_injective_witness :
  nth_error (encode 1 sample_config) 88 =
  nth_error (encode 255 sample_config ++ trailing) 88.
Proof.
  eapply (deserialize_payload_injective
            (encode 1 sample_config)
            (encode 255 sample_config ++ trailing) _).
  - vm_compute. lia.
  - vm_compute. lia.
  - vm_compute. reflexivity.
  - vm_compute. reflexivity.
  - lia.
Defined.

(** X2: writing a decoded [Config] back in the canonical layout gives the
    bytes 8 to 160 of the buffer it came from, after the 8 bytes of the
    discriminator region; with the value of the buffer's own first 8 bytes
    there, it gives the first 161 bytes of the buffer. *)
Theorem encode_after_deserialize (data : bytes) (c : Config) (disc : Z) :
  (161 <= length data)%nat ->
  deserialize data = Ok c ->
  encode disc c = int_to_bytes_little 8 disc ++ slice data 8 161 /\
  encode (int_from_bytes_little (slice data 0 8)) c = firstn 161 data.
Proof.
  intros Hlen E. apply deserialize_inv in E.
  destruct E as (_ & A & R & Ee & En & Ed & Ef & Eb & Ep & W & FA & BU).
  destruct (field_windows_full data Hlen) as (La & Lb & Lc & Ld & Le & Lf & Lg).
  assert (Hpayload : forall x,
    encode x c = int_to_bytes_little 8 x ++ slice data 8 161).
  { intro x. unfold encode.
    rewrite A, R, Ee, En, Ed, Ef, Eb, Ep, W, FA, BU.
    rewrite !int_to_from_bytes_little_width by assumption.
    rewrite (slice_join data 128 160 161), (slice_join data 96 128 161),
      (slice_join data 94 96 161), (slice_join data 92 94 161),
      (slice_join data 90 92 161), (slice_join data 88 90 161),
      (slice_join data 80 88 161), (slice_join data 72 80 161),
      (slice_join data 40 72 161), (slice_join data 8 40 161) by lia.
    reflexivity. }
  split; [ apply Hpayload | ].
  rewrite Hpayload.
  assert (L0 : length (slice data 0 8) = 8%nat) by (rewrite length_slice; lia).
  rewrite int_to_from_bytes_little_width by exact L0.
  rewrite slice_join by lia. apply slice_from_0.
Qed.

Lemma encode_after_deserialize_witness :
  exists c,
    encode 0 c = int_to_bytes_little 8 0 ++ slice scenario_buffer_160 8 161 /\
    encode (int_from_bytes_little (slice scenario_buffer_160 0 8)) c =
      firstn 161 scenario_buffer_160.
Proof.
  eexists.
  apply (encode_after_deserialize scenario_buffer_160 _ 0).
  - vm_compute. lia.
  - vm_compute. reflexivity.
Defined.



(* ================================================================== *)
(** ** Display *)

Lemma append_inv_head (p x y : string) :
  (p ++ x = p ++ y)%string -> x = y.
Proof.
  induction p as [ | ch p IH ]; cbn [append]; intro H.
  - exact H.
  - injection H as H. now apply IH.
Qed.

(** Two texts free of the character [a], each followed by [a], are cut at
    the same place. *)
Lemma cut_at (a : ascii) (x1 x2 r1 r2 : string) :
  occurs a x1 = false -> occurs a x2 = false ->
  (x1 ++ (String a EmptyString ++ r1) = x2 ++ (String a EmptyString ++ r2))%string ->
  x1 = x2 /\ r1 = r2.
Proof.
  revert x2. induction x1 as [ | c1 x1 IH ]; intros [ | c2 x2 ];
    cbn [append occurs]; intros F1 F2 H.
  - injection H as H. now split.
  - injection H as Hc _. subst c2.
    rewrite Ascii.eqb_refl in F2. discriminate.
  - injection H as Hc _. subst c1.
    rewrite Ascii.eqb_refl in F1. discriminate.
  - injection H as Hc H. subst c2.
    apply Bool.orb_false_elim in F1. apply Bool.orb_false_elim in F2.
    destruct (IH x2 (proj2 F1) (proj2 F2) H) as [-> ->]. now split.
Qed.

Lemma string_of_uint_no_comma (d : Decimal.uint) :
  occurs "," (NilEmpty.string_of_uint d) = false.
Proof.
  induction d; cbn [NilEmpty.string_of_uint occurs]; try reflexivity;
    rewrite IHd; reflexivity.
Qed.

Lemma int_str_no_comma (n : Z) : occurs "," (int_str n) = false.
Proof.
  unfold int_str.
  assert (U : forall d, occurs "," (NilZero.string_of_uint d) = false).
  { intro d. destruct d; [ reflexivity | .. ];
      apply string_of_uint_no_comma. }
  destruct n as [ | p | p ]; cbn [Z.to_int NilZero.string_of_int].
  - reflexivity.
  - apply U.
  - cbn [occurs]. rewrite U. reflexivity.
Qed.

Lemma int_str_inj (n m : Z) : int_str n = int_str m -> n = m.
Proof.
  unfold int_str. intro H.
  assert (P : forall z, NilZero.int_of_string
                          (NilZero.string_of_int (Z.to_int z))
                        = Some (Z.to_int z)).
  { intro z. apply NilZero.isi; destruct z as [ | p | p ];
      cbn [Z.to_int]; try discriminate;
      intro E; injection E as E; now apply Unsigned.to_uint_nonnil in E. }
  apply (f_equal NilZero.int_of_string) in H.
  rewrite !P in H. injection H as H.
  now apply DecimalZ.to_int_inj.
Qed.

Section DisplayFacts.

Variable Pubkey_str : Pubkey.t -> string.
Hypothesis Pubkey_str_no_comma : forall key, occurs "," (Pubkey_str key) = false.

(** Two [Config]s with one rendering have the same rendering of each key
    and the same integers. *)
Lemma str_fields (c1 c2 : Config) :
  __str__ Pubkey_str c1 = __str__ Pubkey_str c2 ->
  Pubkey_str (admin c1) = Pubkey_str (admin c2) /\
  Pubkey_str (restaking_program c1) = Pubkey_str (restaking_program c2) /\
  epoch_length c1 = epoch_length c2 /\
  num_vaults c1 = num_vaults c2 /\
  deposit_withdrawal_fee_cap_bps c1 = deposit_withdrawal_fee_cap_bps c2 /\
  fee_rate_of_change_bps c1 = fee_rate_of_change_bps c2 /\
  fee_bump_bps c1 = fee_bump_bps c2 /\
  program_fee_bps c1 = program_fee_bps c2 /\
  Pubkey_str (program_fee_wallet c1) = Pubkey_str (program_fee_wallet c2) /\
  Pubkey_str (fee_admin c1) = Pubkey_str (fee_admin c2) /\
  bump c1 = bump c2.
Proof.
  unfold __str__. intro H.
  repeat apply append_inv_head in H.
  apply cut_at in H; try apply Pubkey_str_no_comma. destruct H as [Ka H].
  repeat apply append_inv_head in H.
  apply cut_at in H; try apply Pubkey_str_no_comma. destruct H as [Kr H].
  repeat apply append_inv_head in H.
  apply cut_at in H; try apply int_str_no_comma. destruct H as [Ie H].
  repeat apply append_inv_head in H.
  apply cut_at in H; try apply int_str_no_comma. destruct H as [In H].
  repeat apply append_inv_head in H.
  apply cut_at in H; try apply int_str_no_comma. destruct H as [Id H].
  repeat apply append_inv_head in H.
  apply cut_at in H; try apply int_str_no_comma. destruct H as [If H].
  repeat apply append_inv_head in H.
  apply cut_at in H; try apply int_str_no_comma. destruct H as [Ib H].
  repeat apply append_inv_head in H.
  apply cut_at in H; try apply int_str_no_comma. destruct H as [Ip H].
  repeat apply append_inv_head in H.
  apply cut_at in H; try apply Pubkey_str_no_comma. destruct H as [Kw H].
  repeat apply append_inv_head in H.
  apply cut_at in H; try apply Pubkey_str_no_comma. destruct H as [Kf H].
  repeat apply append_inv_head in H.
  apply cut_at in H; try apply int_str_no_comma. destruct H as [Ibu _].
  repeat split; try assumption; now apply int_str_inj.
Qed.

End DisplayFacts.

(** *** The hexadecimal rendering of keys *)

Lemma hex_digits_byte (b : byte) :
  Byte.of_N (hex_value (hex_digit (Byte.to_N b / 16)) * 16
             + hex_value (hex_digit (Byte.to_N b mod 16))) = Some b.
Proof. destruct b; reflexivity. Qed.

Lemma hex_digits_no_comma (b : byte) :
  Ascii.eqb "," (hex_digit (Byte.to_N b / 16)) = false /\
  Ascii.eqb "," (hex_digit (Byte.to_N b mod 16)) = false.
Proof. destruct b; split; reflexivity. Qed.

Lemma bytes_hex_inj (bs1 bs2 : bytes) :
  bytes_hex bs1 = bytes_hex bs2 -> bs1 = bs2.
Proof.
  revert bs2. induction bs1 as [ | a bs1 IH ]; intros [ | b bs2 ];
    cbn [bytes_hex]; intro H; try discriminate; [ reflexivity | ].
  injection H as Hhi Hlo Hrest.
  pose proof (hex_digits_byte a) as Ha.
  rewrite Hhi, Hlo, hex_digits_byte in Ha.
  injection Ha as ->. f_equal. now apply IH.
Qed.

Lemma bytes_hex_no_comma (bs : bytes) : occurs "," (bytes_hex bs) = false.
Proof.
  induction bs as [ | b bs IH ]; [ reflexivity | ].
  cbn [bytes_hex occurs].
  destruct (hex_digits_no_comma b) as [-> ->]. exact IH.
Qed.

Lemma Pubkey_hex_no_comma (key : Pubkey.t) : occurs "," (Pubkey_hex key) = false.
Proof. apply bytes_hex_no_comma. Qed.

Lemma Pubkey_hex_inj (k1 k2 : Pubkey.t) : Pubkey_hex k1 = Pubkey_hex k2 -> k1 = k2.
Proof.
  intro H. apply Pubkey_ext. now apply bytes_hex_inj.
Qed.

(** X4: when the rendering of keys is injective and never holds a comma
    (as base 58 is), two [Config]s have the same [__str__] only if they are
    the same [Config]: every field can be read back from the text. *)
Theorem str_injective (Pubkey_str : Pubkey.t -> string) (c1 c2 : Config) :
  (forall key, occurs "," (Pubkey_str key) = false) ->
  (forall k1 k2, Pubkey_str k1 = Pubkey_str k2 -> k1 = k2) ->
  __str__ Pubkey_str c1 = __str__ Pubkey_str c2 ->
  c1 = c2.
Proof.
  intros Hcomma Hinj H.
  apply (str_fields Pubkey_str Hcomma) in H.
  destruct H as (Ka & Kr & Ie & In & Id & If & Ib & Ip & Kw & Kf & Ibu).
  apply Hinj in Ka, Kr, Kw, Kf.
  destruct c1, c2; cbn in *; congruence.
Qed.

Lemma str_injective_witness :
  sample_config = sample_config_decoded.
Proof.
  apply (str_injective Pubkey_hex sample_config sample_config_decoded).
  - exact Pubkey_hex_no_comma.
  - exact Pubkey_hex_inj.
  - vm_compute. reflexivity.
Defined.
